(** * singleton-crtp.h: the CRTP singleton utility of namespace
      bb::singleton::singleton_crtp

    The header has a compile-time half (the trait [has_MainCtor], the overload
    set [CheckIsMainCtorCalled], the deleted special members of
    [SingletonCRTP]) and a run-time half (the static pointer [instance] and
    the member functions that read and write it).  Both halves are embedded
    here: the compile-time half as functions over a small description of C++
    types, the run-time half as a state-and-error monad over the static
    pointer and the store of objects of the composed type. *)

From stdpp Require Import gmap strings.

Local Open Scope string_scope.
Local Open Scope list_scope.

(** ** Compile-time half: types, members, member lookup *)

(** The types a data member of the composed class can be declared with. *)
Inductive ctype : Type :=
  | Tbool
  | Tint
  | Tconst (t : ctype)
  | Tref (t : ctype)
  | Tptr (t : ctype)
  | Tclass (n : string).

#[global] Instance ctype_eq_dec : EqDecision ctype.
Proof. solve_decision. Defined.

Inductive access : Type := Public | Protected | Private.

Inductive entity : Type :=
  | DataMember (ty : ctype)
  | MemberFunction.

Record member : Type := Member {
  m_name : string;
  m_entity : entity;
  m_access : access
}.

(** A class: the members it declares itself, and its direct base classes,
    each with the access it is inherited with.  (Base classes are not
    virtual and members are not static, so a name reached through two base
    classes is two different members.) *)
#[warnings="-register-all"]
Inductive class_decl : Type :=
  Class_decl (own : list member) (bases : list (access * class_decl)).

Definition c_members (c : class_decl) : list member :=
  match c with Class_decl own _ => own end.

Definition c_bases (c : class_decl) : list (access * class_decl) :=
  match c with Class_decl _ bases => bases end.

Inductive scalar : Type := Sbool | Sint.

(** A template argument: a class, a type that is not a class, or a type
    built from one of these. *)
Inductive cpp_type : Type :=
  | NonClass (s : scalar)
  | Class (c : class_decl)
  | Qualified (T : cpp_type)      (* const T, volatile T *)
  | Reference (T : cpp_type)      (* T&, T&& *)
  | Pointer (T : cpp_type)        (* T* *)
  | Array (T : cpp_type).         (* T[n], T[] *)

Definition marker : string := "IsMainCtorCalled".

(** [struct IMainCtor { bool IsMainCtorCalled{false}; };] *)
Definition IMainCtor : class_decl :=
  Class_decl [Member marker (DataMember Tbool) Public] [].

(** The members of [SingletonCRTP<T>] that have a name. *)
Definition SingletonCRTP_members : class_decl :=
  Class_decl
    [ Member "CreateSingleton" MemberFunction Public;
      Member "GetInstance" MemberFunction Public;
      Member "instance" (DataMember (Tptr (Tclass "Type"))) Private ]
    [].

(** The declaration of [n] among the members a class declares itself. *)
Definition find_member (n : string) (ms : list member) : option member :=
  List.find (fun m => String.eqb (m_name m) n) ms.

(** What member name lookup ends in. *)
Inductive lookup_result : Type :=
  | NotFound
  | Found (m : member)
  | Ambiguous.

(** The access of an inherited member when it is named through the derived
    class. *)
Definition inherited_access (inheritance of_member : access) : access :=
  match inheritance, of_member with
  | _, Private => Private
  | Public, a => a
  | Protected, _ => Protected
  | Private, _ => Private
  end.

Definition through (inheritance : access) (r : lookup_result) : lookup_result :=
  match r with
  | Found (Member n e a) => Found (Member n e (inherited_access inheritance a))
  | _ => r
  end.

(** The results of two base classes together: a name found in both, or
    ambiguous in one, is ambiguous. *)
Definition merge (r1 r2 : lookup_result) : lookup_result :=
  match r1, r2 with
  | NotFound, r | r, NotFound => r
  | _, _ => Ambiguous
  end.

(** Member name lookup in a class: a declaration of the class itself hides
    the base classes; otherwise the base classes are searched, and the name
    must come from one of them only. *)
Fixpoint class_lookup (n : string) (c : class_decl) : lookup_result :=
  match c with
  | Class_decl own bases =>
      match find_member n own with
      | Some m => Found m
      | None =>
          (fix in_bases (bs : list (access * class_decl)) : lookup_result :=
             match bs with
             | [] => NotFound
             | (a, b) :: rest => merge (through a (class_lookup n b)) (in_bases rest)
             end) bases
      end
  end.

(** Lookup of [n] in the expression [std::declval<T>().n]: in the class the
    expression has, whatever its qualifiers and whether [T] is a reference
    to it; nothing is found in a type that is not a class. *)
Fixpoint member_lookup (T : cpp_type) (n : string) : lookup_result :=
  match T with
  | Class c => class_lookup n c
  | Qualified T' | Reference T' => member_lookup T' n
  | NonClass _ | Pointer _ | Array _ => NotFound
  end.

(** [decltype(std::declval<T>().n)]: the declared type of the data member
    that [n] names in [T].  [None] is a substitution failure: the
    expression is not of class type, the class has no member [n], the name
    is ambiguous, the member is not accessible, or it is not a data
    member. *)
Definition decltype_member (T : cpp_type) (n : string) : option ctype :=
  match member_lookup T n with
  | Found (Member _ (DataMember ty) Public) => Some ty
  | _ => None
  end.

(** The default of the second template parameter of [has_MainCtor]:
    [decltype(std::declval<IMainCtor>().IsMainCtorCalled)]. *)
Definition has_MainCtor_default : option ctype :=
  decltype_member (Class IMainCtor) marker.

(** [has_MainCtor<T, U>::value].  The partial specialization
    [has_MainCtor<T, decltype(std::declval<T>().IsMainCtorCalled)>] is
    chosen (true_type) when its second argument is well-formed and is the
    type [U] the template was named with; otherwise the primary template
    (false_type) is. *)
Definition has_MainCtor_at (T : cpp_type) (U : ctype) : bool :=
  match decltype_member T marker with
  | Some X => bool_decide (X = U)
  | None => false
  end.

(** [has_MainCtor<T>::value], the second argument taken from the default. *)
Definition has_MainCtor (T : cpp_type) : bool :=
  match has_MainCtor_default with
  | Some U => has_MainCtor_at T U
  | None => false
  end.

(** What the comments of the header call "T has a variable named
    IsMainCtorCalled": member lookup finds an accessible data member of that
    name, of whatever type. *)
Definition exposes_marker (T : cpp_type) : Prop :=
  exists m ty, member_lookup T marker = Found m /\
    m_entity m = DataMember ty /\ m_access m = Public.

(** [T] has the completion flag the way [IMainCtor] declares it: an
    accessible data member [bool IsMainCtorCalled]. *)
Definition declares_flag (T : cpp_type) : Prop :=
  exists m, member_lookup T marker = Found m /\
    m_entity m = DataMember Tbool /\ m_access m = Public.

(** ** Compile-time half: the special member functions of SingletonCRTP *)

Inductive operation : Type := Construction | Assignment.

(** The parameter of a copy or move operation of class S:
    [const S&], [S&&] or [S&]. *)
Inductive parameter : Type := ConstLvalueRef | RvalueRef | LvalueRef.

Record special_member : Type := Special_member {
  sm_operation : operation;
  sm_parameter : option parameter;
  sm_deleted : bool;
  sm_access : access
}.

(** The constructors and assignment operators [SingletonCRTP] declares, in
    the order of the header: the six deleted ones of its public part and the
    protected default constructor. *)
Definition SingletonCRTP_special_members : list special_member :=
  [ Special_member Construction (Some ConstLvalueRef) true Public;
    Special_member Assignment (Some ConstLvalueRef) true Public;
    Special_member Construction (Some RvalueRef) true Public;
    Special_member Assignment (Some RvalueRef) true Public;
    Special_member Construction (Some LvalueRef) true Public;
    Special_member Assignment (Some LvalueRef) true Public;
    Special_member Construction None false Protected ].

(** What an object is copied or moved from. *)
Inductive source : Type := Lvalue | ConstLvalue | Rvalue | ConstRvalue.

(** Reference binding: [const S&] binds to everything, [S&&] to a
    modifiable rvalue, [S&] to a modifiable lvalue. *)
Definition binds (par : parameter) (src : source) : bool :=
  match par, src with
  | ConstLvalueRef, _ => true
  | RvalueRef, Rvalue => true
  | LvalueRef, Lvalue => true
  | _, _ => false
  end.

Definition is_operation (op1 op2 : operation) : bool :=
  match op1, op2 with
  | Construction, Construction | Assignment, Assignment => true
  | _, _ => false
  end.

Definition viable (op : operation) (src : source) (m : special_member) : bool :=
  is_operation (sm_operation m) op &&
  match sm_parameter m with
  | Some par => binds par src
  | None => false
  end.

(** A binding that adds no [const] is the better conversion. *)
Definition exact (m : special_member) : bool :=
  match sm_parameter m with
  | Some ConstLvalueRef | None => false
  | Some _ => true
  end.

(** Overload resolution among the declared members for an operation with one
    argument: the best viable candidate, deleted ones included. *)
Definition resolve (decls : list special_member) (op : operation)
    (src : source) : option special_member :=
  let candidates := List.filter (viable op src) decls in
  match List.filter exact candidates with
  | m :: _ => Some m
  | [] => List.head candidates
  end.

(** The operation is well-formed when a candidate is selected and it is not
    deleted. *)
Definition usable (decls : list special_member) (op : operation)
    (src : source) : bool :=
  match resolve decls op src with
  | Some m => negb (sm_deleted m)
  | None => false
  end.

(** What a copy or move operation of a composed class does with its base
    class subobject: nothing of its own (a constructor then default-
    initializes it, an assignment leaves it alone), or it hands an argument
    on to the corresponding operation of the base class. *)
Inductive base_treatment : Type :=
  | BaseDefault
  | BaseFrom (src : source).

(** How a composed class comes by a copy or move operation: declared
    implicitly (or defaulted), which hands the argument on to the base
    class, or written by the user. *)
Inductive derived_operation : Type :=
  | ImplicitlyDeclared (src : source)
  | UserWritten (b : base_treatment).

(** Default construction of the base class subobject from a constructor of
    the composed class: a constructor without parameters that is not
    deleted and not private. *)
Definition default_constructible_in_derived
    (decls : list special_member) : bool :=
  existsb
    (fun m =>
       is_operation (sm_operation m) Construction &&
       match sm_parameter m with None => true | Some _ => false end &&
       negb (sm_deleted m) &&
       match sm_access m with Private => false | _ => true end)
    decls.

(** Whether the operation of the composed class can be used. *)
Definition derived_well_formed (decls : list special_member)
    (op : operation) (d : derived_operation) : bool :=
  match d with
  | ImplicitlyDeclared src => usable decls op src
  | UserWritten (BaseFrom src) => usable decls op src
  | UserWritten BaseDefault =>
      match op with
      | Construction => default_constructible_in_derived decls
      | Assignment => true
      end
  end.

(** ** Compile-time half: the alias [Type] and the [static_assert] *)

Record cv_qualifiers : Type := Cv {
  cv_const : bool;
  cv_volatile : bool
}.

Definition unqualified : cv_qualifiers := Cv false false.

Inductive base_type : Type :=
  | BaseClass (n : string)
  | BaseOther.

Inductive reference : Type := LvalueReference | RvalueReference.

(** A template argument in the shape the three traits look at: an optional
    reference, to an array with the given extents ([None] is an unknown
    bound; no extents is no array), of elements that are a cv-qualified
    class or something else. *)
Record template_argument : Type := Template_argument {
  ta_reference : option reference;
  ta_extents : list (option nat);
  ta_cv : cv_qualifiers;
  ta_base : base_type
}.

(** [std::remove_all_extents<T>::type]: the element type of an array, [T]
    itself otherwise (a reference to an array is not an array). *)
Definition remove_all_extents (t : template_argument) : template_argument :=
  match ta_reference t with
  | None => Template_argument None [] (ta_cv t) (ta_base t)
  | Some _ => t
  end.

(** [std::remove_cv<T>::type]: the top-level qualifiers go; a reference has
    none. *)
Definition remove_cv (t : template_argument) : template_argument :=
  match ta_reference t with
  | None => Template_argument None (ta_extents t) unqualified (ta_base t)
  | Some _ => t
  end.

(** [std::remove_reference<T>::type] *)
Definition remove_reference (t : template_argument) : template_argument :=
  Template_argument None (ta_extents t) (ta_cv t) (ta_base t).

(** [std::is_class<T>::value]: a class type, qualified or not. *)
Definition is_class (t : template_argument) : bool :=
  match ta_reference t, ta_extents t, ta_base t with
  | None, [], BaseClass _ => true
  | _, _, _ => false
  end.

(** [using Type = typename std::remove_reference<typename std::remove_cv<
       typename std::remove_all_extents<T>::type>::type>::type;] *)
Definition SingletonCRTP_Type (t : template_argument) : template_argument :=
  remove_reference (remove_cv (remove_all_extents t)).

(** [static_assert(std::is_class<Type>::value, ...)] *)
Definition static_assert_holds (t : template_argument) : bool :=
  is_class (SingletonCRTP_Type t).

(** ** Run-time half: objects, the static pointer, the monad *)

Inductive value : Type :=
  | Vbool (b : bool)
  | Vint (z : Z).

(** An object of the composed type: the values of its data members. *)
Abbreviation object := (gmap string value).

Abbreviation addr := positive.

(** The program state the header is about: the static data member
    [SingletonCRTP<T>::instance] ([None] is [nullptr]) and the objects of type
    [T] whose lifetime has started and whose storage has not been released. *)
Record state : Type := State {
  instance : option addr;
  heap : gmap addr object
}.

(** [template <class T> typename SingletonCRTP<T>::Type*
     SingletonCRTP<T>::instance = nullptr;] *)
Definition initial_state : state := State None ∅.

(** How a call ends: normally, with a failed [assert] (the program is
    aborted), with undefined behaviour (a null or dangling pointer is
    dereferenced), or not at all within the given recursion depth. *)
Inductive outcome (A : Type) : Type :=
  | Ok (a : A) (st : state)
  | AssertionFailed
  | Undefined
  | OutOfFuel.
Arguments Ok {A} a st.
Arguments AssertionFailed {A}.
Arguments Undefined {A}.
Arguments OutOfFuel {A}.

Definition M (A : Type) : Type := state -> outcome A.

Definition ret {A} (a : A) : M A := fun st => Ok a st.

Definition bind {A B} (m : M A) (k : A -> M B) : M B :=
  fun st =>
    match m st with
    | Ok a st' => k a st'
    | AssertionFailed => AssertionFailed
    | Undefined => Undefined
    | OutOfFuel => OutOfFuel
    end.

Declare Scope cpp_scope.
Delimit Scope cpp_scope with cpp.
Notation "x <- m ;; k" := (bind m (fun x => k))
  (at level 100, m at next level, right associativity) : cpp_scope.
Notation "m ;;; k" := (bind m (fun _ => k))
  (at level 100, right associativity) : cpp_scope.
Local Open Scope cpp_scope.

(** [p == nullptr], which is also [!p]. *)
Definition is_null (p : option addr) : bool :=
  match p with
  | None => true
  | Some _ => false
  end.

Definition get_instance : M (option addr) := fun st => Ok (instance st) st.

Definition set_instance (p : option addr) : M unit :=
  fun st => Ok tt (State p (heap st)).

(** [assert(b)] of <cassert>, in a build without NDEBUG. *)
Definition assert (b : bool) : M unit :=
  fun st => if b then Ok tt st else AssertionFailed.

(** Reading through a pointer: undefined when the pointer is null or does
    not point to an object. *)
Definition load (p : option addr) : M object :=
  fun st =>
    match p with
    | Some a =>
        match heap st !! a with
        | Some o => Ok o st
        | None => Undefined
        end
    | None => Undefined
    end.

(** The conversion of a member's value to [bool]. *)
Definition to_bool (v : value) : bool :=
  match v with
  | Vbool b => b
  | Vint z => negb (Z.eqb z 0)
  end.

(** [t->IsMainCtorCalled], converted to the [bool] the caller asks for. *)
Definition read_marker (o : object) : M bool :=
  fun st =>
    match o !! marker with
    | Some v => Ok (to_bool v) st
    | None => Undefined
    end.

(** [template<typename T> enable_if<has_MainCtor<T>::value, bool>::type
     CheckIsMainCtorCalled(T* t) { return t->IsMainCtorCalled; }] *)
Definition CheckIsMainCtorCalled_template (t : option addr) : M bool :=
  o <- load t ;; read_marker o.

(** [inline bool CheckIsMainCtorCalled(...) { return true; }] *)
Definition CheckIsMainCtorCalled_variadic : M bool := ret true.

(** The call [CheckIsMainCtorCalled(t)] with [t] of type [U*]: the template
    is a candidate only when [has_MainCtor<U>::value] holds, and then it is
    the better match; the variadic function is the fall-back. *)
Definition CheckIsMainCtorCalled (U : cpp_type) (t : option addr) : M bool :=
  if has_MainCtor U then CheckIsMainCtorCalled_template t
  else CheckIsMainCtorCalled_variadic.

(** Storage for a new object: an address no live object has.  Allocation
    is taken to succeed. *)
Definition allocate : M addr := fun st => Ok (fresh (dom (heap st))) st.

Definition store (a : addr) (o : object) : M unit :=
  fun st => Ok tt (State (instance st) (<[a:=o]> (heap st))).

Definition deallocate (a : addr) : M unit :=
  fun st => Ok tt (State (instance st) (delete a (heap st))).

(** [*p] bound to a reference: the object's address, undefined when [p] is
    null or dangling. *)
Definition deref (p : option addr) : M addr :=
  fun st =>
    match p with
    | Some a =>
        match heap st !! a with
        | Some _ => Ok a st
        | None => Undefined
        end
    | None => Undefined
    end.

Module SingletonCRTP.
Section WithT.

(** The composed class [T] (a class: the [static_assert] of the header
    rejects anything else), the arguments its constructors take, and what a
    constructor of [T] leaves in the data members of the new object.  The
    constructors and the destructor of [T] are the user's code; they are
    taken not to call into the utility themselves. *)
Context (T : class_decl) {Args : Type} (ctor_T : Args -> object).

(** [SingletonCRTP() { instance = static_cast<Type*>(this); }] *)
Definition ctor (this : addr) : M unit := set_instance (Some this).

(** The construction of a [T] at [this]: the base-class constructor first,
    then the members as [T]'s constructor initializes them. *)
Definition construct_T (this : addr) (args : Args) : M unit :=
  ctor this ;;; store this (ctor_T args).

(** [new Type(std::forward<Args>(args)...)] *)
Definition new_Type (args : Args) : M addr :=
  a <- allocate ;; construct_T a args ;;; ret a.

(** [static Type& CreateSingleton(Args... args)] *)
Definition CreateSingleton (args : Args) : M addr :=
  p <- get_instance ;;
  (if is_null p
   then (a <- new_Type args ;; set_instance (Some a))
   else ret tt) ;;;
  p <- get_instance ;;
  b <- CheckIsMainCtorCalled (Class T) p ;;
  assert b ;;;
  p <- get_instance ;;
  deref p.

(** [static Type* GetInstance()].  The asserted comma expression has the
    value of its second operand, [instance != nullptr]. *)
Definition GetInstance : M (option addr) :=
  p <- get_instance ;;
  assert (negb (is_null p)) ;;;
  get_instance.

(** [Type& operator *() { return *instance; }] *)
Definition operator_star (this : addr) : M addr :=
  p <- get_instance ;; deref p.

(** [const Type& operator *() const { return *instance; }] *)
Definition operator_star_const (this : addr) : M addr :=
  p <- get_instance ;; deref p.

(** [Type* operator ->() { return &**this; }] *)
Definition operator_arrow (this : addr) : M (option addr) :=
  r <- operator_star this ;; ret (Some r).

(** [const Type* operator ->() const { return &**this; }] *)
Definition operator_arrow_const (this : addr) : M (option addr) :=
  r <- operator_star_const this ;; ret (Some r).

(** [delete p;] with the destructor that [p]'s class has: nothing for a null
    pointer, otherwise the destructor runs on the object and its storage is
    released. *)
Definition delete_expr (destroy : addr -> M unit) (p : option addr) : M unit :=
  match p with
  | None => ret tt
  | Some a => load p ;;; destroy a ;;; deallocate a
  end.

(** [virtual ~SingletonCRTP() { delete instance; instance = nullptr; }]
    The destructor is virtual and [instance] has type [Type*], so
    [delete instance] runs the destructor of the object [instance] points
    to (the destructor of [T], whose own part is the user's code), which
    ends in this same base-class destructor: the function is recursive, and
    [fuel] bounds the depth of the recursion.  (The language leaves a
    destructor entered twice for one object undefined; the recursion is what
    the text of the function does.) *)
Fixpoint dtor (fuel : nat) (this : addr) : M unit :=
  match fuel with
  | O => fun _ => OutOfFuel
  | S n =>
      p <- get_instance ;;
      delete_expr (dtor n) p ;;;
      set_instance None
  end.

(** What a program does with the utility, one call at a time. *)
Inductive op : Type :=
  | OpCreate (args : Args)          (* T::CreateSingleton(args) *)
  | OpGet                           (* T::GetInstance() *)
  | OpStar (this : addr)            (* *x *)
  | OpArrow (this : addr)           (* x.operator->() *)
  | OpStarConst (this : addr)
  | OpArrowConst (this : addr)
  | OpConstruct (args : Args)       (* a T constructed outside CreateSingleton *)
  | OpDelete (p : addr).            (* delete p *)

Definition step (fuel : nat) (o : op) : M unit :=
  match o with
  | OpCreate args => CreateSingleton args ;;; ret tt
  | OpGet => GetInstance ;;; ret tt
  | OpStar this => operator_star this ;;; ret tt
  | OpArrow this => operator_arrow this ;;; ret tt
  | OpStarConst this => operator_star_const this ;;; ret tt
  | OpArrowConst this => operator_arrow_const this ;;; ret tt
  | OpConstruct args => new_Type args ;;; ret tt
  | OpDelete p => delete_expr (dtor fuel) (Some p)
  end.

Fixpoint run (fuel : nat) (ops : list op) : M unit :=
  match ops with
  | [] => ret tt
  | o :: rest => step fuel o ;;; run fuel rest
  end.

Definition is_direct_construction (o : op) : bool :=
  match o with OpConstruct _ => true | _ => false end.

End WithT.
End SingletonCRTP.

(** ** Concrete composed classes *)

(** [struct Flagged : SingletonCRTP<Flagged>, IMainCtor
      { Flagged(bool main) { IsMainCtorCalled = main; } };] *)
Definition Flagged : class_decl :=
  Class_decl [] [(Public, SingletonCRTP_members); (Public, IMainCtor)].
Definition ctor_Flagged (main : bool) : object := {[ marker := Vbool main ]}.

(** [struct Plain : SingletonCRTP<Plain> { int x; Plain(int x) : x(x) {} };] *)
Definition Plain : class_decl :=
  Class_decl [Member "x" (DataMember Tint) Public]
             [(Public, SingletonCRTP_members)].
Definition ctor_Plain (x : Z) : object := {[ "x" := Vint x ]}.

(** [struct Counted : SingletonCRTP<Counted>
      { int IsMainCtorCalled; Counted(int n) : IsMainCtorCalled(n) {} };] *)
Definition Counted : class_decl :=
  Class_decl [Member marker (DataMember Tint) Public]
             [(Public, SingletonCRTP_members)].
Definition ctor_Counted (n : Z) : object := {[ marker := Vint n ]}.

(** [class Hidden : public SingletonCRTP<Hidden>, IMainCtor { ... };]
    ([IMainCtor] is a private base class). *)
Definition Hidden : class_decl :=
  Class_decl [] [(Public, SingletonCRTP_members); (Private, IMainCtor)].

(** [struct Other { bool IsMainCtorCalled; };
     struct Twice : SingletonCRTP<Twice>, IMainCtor, Other { ... };] *)
Definition Twice : class_decl :=
  Class_decl []
    [ (Public, SingletonCRTP_members); (Public, IMainCtor);
      (Public, Class_decl [Member marker (DataMember Tbool) Public] []) ].

(** [struct Copyable : SingletonCRTP<Copyable> {
       int x;
       Copyable(int x) : x(x) {}
       Copyable(const Copyable& o) : x(o.x) {}
     };]
    The copy constructor is the user's; it names no initializer for the
    base class, which is therefore default-initialized. *)
Definition Copyable : class_decl :=
  Class_decl [Member "x" (DataMember Tint) Public]
             [(Public, SingletonCRTP_members)].

Inductive Copyable_args : Type :=
  | FromInt (x : Z)
  | CopyOf (o : object).

Definition ctor_Copyable (a : Copyable_args) : object :=
  match a with
  | FromInt x => {[ "x" := Vint x ]}
  | CopyOf o =>
      match o !! "x" with
      | Some v => {[ "x" := v ]}
      | None => ∅
      end
  end.

Import SingletonCRTP.

(** ** Notions the statements use *)

Section Singleton.

Context (T : class_decl) {Args : Type} (ctor_T : Args -> object).

Abbreviation step' := (step T ctor_T).
Abbreviation run' := (run T ctor_T).

(** The state in which [CreateSingleton] runs its assertion: the one it was
    called in when the pointer is set, otherwise the one with the new object
    in fresh storage and the pointer on it. *)
Definition after_creation (args : Args) (st : state) : state :=
  match instance st with
  | Some _ => st
  | None =>
      let a := fresh (dom (heap st)) in
      State (Some a) (<[a := ctor_T args]> (heap st))
  end.

(** The object the assertion of [CreateSingleton] looks at: the existing
    instance, or else the one the call constructs. *)
Definition checked_object (args : Args) (st : state) : option object :=
  match instance st with
  | Some a => heap st !! a
  | None => Some (ctor_T args)
  end.

(** A state is consistent when the pointer is null only if no object of the
    composed type is live, and otherwise points to a live one. *)
Definition consistent (st : state) : Prop :=
  (instance st = None -> heap st = ∅) /\
  (forall a, instance st = Some a -> is_Some (heap st !! a)).

(** The states a program reaches from the start of the process. *)
Definition reachable (st : state) : Prop :=
  exists fuel ops, run' fuel ops initial_state = Ok tt st.

(** No direct construction among the calls. *)
Definition utility_only (ops : list (op (Args:=Args))) : Prop :=
  Forall (fun o => is_direct_construction o = false) ops.

(** Nothing yet, or one object and the pointer on it. *)
Definition single (st : state) : Prop :=
  (instance st = None /\ heap st = ∅) \/
  (exists a o, instance st = Some a /\ heap st = {[a := o]}).

(** The invariant of the data model: at most one object of the composed type
    is live, whatever the program has done. *)
Definition at_most_one_live : Prop :=
  forall fuel ops st,
    run' fuel ops initial_state = Ok tt st -> size (heap st) <= 1.

(** ** Facts about the trait and the completion check *)

Lemma find_member_name n ms m : find_member n ms = Some m -> m_name m = n.
Proof.
  unfold find_member. intros H. apply List.find_some in H as [_ H].
  by apply String.eqb_eq.
Qed.

Lemma has_MainCtor_default_bool : has_MainCtor_default = Some Tbool.
Proof. reflexivity. Qed.

(** The trait is true exactly for the types that have the flag with the
    type [IMainCtor] gives it. *)
Lemma has_MainCtor_iff_declares_flag (U : cpp_type) :
  has_MainCtor U = true <-> declares_flag U.
Proof.
  unfold has_MainCtor, has_MainCtor_at, decltype_member, declares_flag.
  rewrite has_MainCtor_default_bool. split.
  - destruct (member_lookup U marker) as [|[n [ty|] [| |]]|] eqn:E; try done.
    intros H. apply bool_decide_eq_true in H. subst ty. by eexists.
  - intros ([n e a] & -> & He & Ha). simpl in He, Ha. subst e a.
    by apply bool_decide_eq_true.
Qed.

Lemma has_MainCtor_false_iff (U : cpp_type) :
  has_MainCtor U = false <-> ~ declares_flag U.
Proof.
  rewrite <- has_MainCtor_iff_declares_flag. by destruct (has_MainCtor U).
Qed.

Lemma declares_flag_exposes_marker (U : cpp_type) :
  declares_flag U -> exposes_marker U.
Proof. intros (m & E & He & Ha). by exists m, Tbool. Qed.

(** A type without any accessible data member of that name gets false. *)
Lemma has_MainCtor_without_marker (U : cpp_type) :
  ~ exposes_marker U -> has_MainCtor U = false.
Proof.
  intros H. apply has_MainCtor_false_iff. intros D.
  by apply H, declares_flag_exposes_marker.
Qed.


Lemma exposes_marker_Counted : exposes_marker (Class Counted).
Proof. by exists (Member marker (DataMember Tint) Public), Tint. Qed.

(** C2.  The trait does not tell every type with the marker from every type
    without it: [Counted] exposes a data member named IsMainCtorCalled (of
    type int), and [has_MainCtor<Counted>::value] is false. *)
Theorem C2_has_MainCtor_misses_int_marker :
  exposes_marker (Class Counted) /\ has_MainCtor (Class Counted) = false.
Proof. split; [apply exposes_marker_Counted | reflexivity]. Qed.

(** The completion check reads and never writes. *)
Lemma CheckIsMainCtorCalled_state (U : cpp_type) t st b st' :
  CheckIsMainCtorCalled U t st = Ok b st' -> st' = st.
Proof.
  unfold CheckIsMainCtorCalled, CheckIsMainCtorCalled_template,
    CheckIsMainCtorCalled_variadic, bind, load, read_marker, ret.
  destruct (has_MainCtor U); [|congruence].
  destruct t as [a|]; [|done].
  destruct (heap st !! a) as [o|]; [|done].
  destruct (o !! marker); [congruence|done].
Qed.

Lemma CheckIsMainCtorCalled_declared (U : cpp_type) a o b st :
  declares_flag U ->
  heap st !! a = Some o -> o !! marker = Some (Vbool b) ->
  CheckIsMainCtorCalled U (Some a) st = Ok b st.
Proof.
  intros D Ha Ho. apply has_MainCtor_iff_declares_flag in D.
  unfold CheckIsMainCtorCalled. rewrite D.
  unfold CheckIsMainCtorCalled_template, bind, load, read_marker.
  by rewrite Ha, Ho.
Qed.

Lemma CheckIsMainCtorCalled_undeclared (U : cpp_type) t st :
  ~ declares_flag U -> CheckIsMainCtorCalled U t st = Ok true st.
Proof.
  intros D. apply has_MainCtor_false_iff in D.
  unfold CheckIsMainCtorCalled. by rewrite D.
Qed.

(** For a pointer to an object of a type for which the trait holds,
    [CheckIsMainCtorCalled] returns the value of the object's flag and
    changes nothing; for an argument of any other type it returns true. *)
Lemma CheckIsMainCtorCalled_value (U : cpp_type) :
  (declares_flag U ->
   forall (a : addr) (o : object) (b : bool) (st : state),
     heap st !! a = Some o -> o !! marker = Some (Vbool b) ->
     CheckIsMainCtorCalled U (Some a) st = Ok b st) /\
  (~ declares_flag U ->
   forall (t : option addr) (st : state),
     CheckIsMainCtorCalled U t st = Ok true st).
Proof.
  split.
  - intros D a o b st. by apply CheckIsMainCtorCalled_declared.
  - intros D t st. by apply CheckIsMainCtorCalled_undeclared.
Qed.

Lemma declares_flag_Flagged : declares_flag (Class Flagged).
Proof. by exists (Member marker (DataMember Tbool) Public). Qed.

Lemma not_declares_flag_Plain : ~ declares_flag (Class Plain).
Proof. by apply has_MainCtor_false_iff. Qed.

(** ** Facts about the member functions *)

Lemma fresh_not_live (h : gmap addr object) : h !! fresh (dom h) = None.
Proof. apply not_elem_of_dom, is_fresh. Qed.

Lemma new_Type_eq args st :
  new_Type ctor_T args st =
  Ok (fresh (dom (heap st)))
     (State (Some (fresh (dom (heap st))))
            (<[fresh (dom (heap st)) := ctor_T args]> (heap st))).
Proof. reflexivity. Qed.

Lemma construct_T_eq this args st :
  construct_T ctor_T this args st =
  Ok tt (State (Some this) (<[this := ctor_T args]> (heap st))).
Proof. reflexivity. Qed.

Lemma CreateSingleton_eq args st :
  CreateSingleton T ctor_T args st =
  (b <- CheckIsMainCtorCalled (Class T) (instance (after_creation args st)) ;;
   assert b ;;;
   deref (instance (after_creation args st))) (after_creation args st).
Proof.
  assert (forall s1,
    (p <- get_instance ;; b <- CheckIsMainCtorCalled (Class T) p ;;
     assert b ;;; p' <- get_instance ;; deref p') s1 =
    (b <- CheckIsMainCtorCalled (Class T) (instance s1) ;;
     assert b ;;; deref (instance s1)) s1) as H.
  { intros s1. unfold bind, get_instance.
    destruct (CheckIsMainCtorCalled (Class T) (instance s1) s1)
      as [b s2| | |] eqn:E; try done.
    apply CheckIsMainCtorCalled_state in E as ->.
    unfold assert. by destruct b. }
  unfold CreateSingleton, after_creation.
  destruct st as [[a|] h]; apply H.
Qed.

Lemma after_creation_checked args st o :
  checked_object args st = Some o ->
  exists a, instance (after_creation args st) = Some a /\
            heap (after_creation args st) !! a = Some o.
Proof.
  unfold checked_object, after_creation.
  destruct st as [[a|] h]; simpl; intros H.
  - by exists a.
  - exists (fresh (dom h)). split; [done|].
    rewrite lookup_insert_eq. congruence.
Qed.

Lemma after_creation_live args st a :
  instance st = Some a -> after_creation args st = st.
Proof. unfold after_creation. by intros ->. Qed.

Lemma after_creation_idem args args' st :
  after_creation args' (after_creation args st) = after_creation args st.
Proof. unfold after_creation. by destruct st as [[a|] h]. Qed.

(** When [CreateSingleton] returns, it returns the instance of the state it
    leaves, and that state is [after_creation]. *)
Lemma CreateSingleton_Ok args st p st' :
  CreateSingleton T ctor_T args st = Ok p st' ->
  st' = after_creation args st /\ instance st' = Some p /\
  is_Some (heap st' !! p) /\
  CheckIsMainCtorCalled (Class T) (Some p) st' = Ok true st'.
Proof.
  rewrite CreateSingleton_eq. set (s1 := after_creation args st).
  unfold bind.
  destruct (CheckIsMainCtorCalled (Class T) (instance s1) s1)
    as [b s2| | |] eqn:E; try done.
  apply CheckIsMainCtorCalled_state in E as Es. subst s2.
  unfold assert. destruct b; [|done].
  unfold deref. destruct (instance s1) as [a|] eqn:Ei; [|done].
  destruct (heap s1 !! a) as [o|] eqn:Eh; [|done].
  intros [= <- <-]. by rewrite Eh.
Qed.

Lemma CreateSingleton_checked args st a :
  instance (after_creation args st) = Some a ->
  is_Some (heap (after_creation args st) !! a) ->
  CheckIsMainCtorCalled (Class T) (Some a) (after_creation args st)
    = Ok true (after_creation args st) ->
  CreateSingleton T ctor_T args st = Ok a (after_creation args st).
Proof.
  intros Ei [o Eh] Ec. rewrite CreateSingleton_eq, Ei. unfold bind.
  rewrite Ec. simpl. unfold deref. by rewrite Eh.
Qed.

Lemma CreateSingleton_unchecked args st a :
  instance (after_creation args st) = Some a ->
  CheckIsMainCtorCalled (Class T) (Some a) (after_creation args st)
    = Ok false (after_creation args st) ->
  CreateSingleton T ctor_T args st = AssertionFailed.
Proof.
  intros Ei Ec. rewrite CreateSingleton_eq, Ei. unfold bind. by rewrite Ec.
Qed.

(** ** The creation and access functions *)

(** For a composed class for which the trait holds, [CreateSingleton] fails
    its assertion exactly when the flag of the instance (the existing one,
    or the one the call constructs) is false; when the flag is true the call
    returns the instance, which is what the static pointer then holds. *)
Lemma CreateSingleton_asserts_declared_flag
    (args : Args) (st : state) (o : object) (b : bool) :
  declares_flag (Class T) ->
  checked_object args st = Some o ->
  o !! marker = Some (Vbool b) ->
  (CreateSingleton T ctor_T args st = AssertionFailed <-> b = false) /\
  (b = true ->
   exists a st',
     CreateSingleton T ctor_T args st = Ok a st' /\
     instance st' = Some a /\ heap st' !! a = Some o).
Proof.
  intros D Hc Ho.
  destruct (after_creation_checked args st o Hc) as (a & Ei & Eh).
  pose proof (CheckIsMainCtorCalled_declared (Class T) a o b _ D Eh Ho) as Ec.
  destruct b.
  - assert (CreateSingleton T ctor_T args st
            = Ok a (after_creation args st)) as E.
    { apply CreateSingleton_checked; [done | by rewrite Eh | done]. }
    split.
    + rewrite E. split; done.
    + intros _. by exists a, (after_creation args st).
  - split; [|done].
    split; [done|]. intros _. by eapply CreateSingleton_unchecked.
Qed.

(** C5.  Of two successive calls of [CreateSingleton], the second constructs
    nothing, changes nothing, does not look at its arguments and returns the
    instance the first one returned. *)
Theorem C5_first_call_wins (args1 args2 : Args) (st st1 : state) (p : addr) :
  CreateSingleton T ctor_T args1 st = Ok p st1 ->
  CreateSingleton T ctor_T args2 st1 = Ok p st1.
Proof.
  intros H. apply CreateSingleton_Ok in H as (-> & Ei & Eh & Ec).
  rewrite <- (after_creation_idem args1 args2 st) at 2.
  apply CreateSingleton_checked; by rewrite after_creation_idem.
Qed.

Lemma GetInstance_null st :
  instance st = None -> GetInstance st = AssertionFailed.
Proof. unfold GetInstance, bind, get_instance. by intros ->. Qed.

Lemma GetInstance_set st a :
  instance st = Some a -> GetInstance st = Ok (Some a) st.
Proof.
  unfold GetInstance, bind, get_instance. intros E. rewrite E. simpl.
  by rewrite E.
Qed.

Lemma operator_star_live this st a :
  instance st = Some a -> is_Some (heap st !! a) ->
  operator_star this st = Ok a st.
Proof.
  unfold operator_star, bind, get_instance, deref. intros -> [o ->]. done.
Qed.

Lemma operator_star_null this st :
  instance st = None -> operator_star this st = Undefined.
Proof. unfold operator_star, bind, get_instance, deref. by intros ->. Qed.

(** C10.  The four dereference operators return the object the static
    pointer refers to.  With an instance they agree with [GetInstance]; with
    a null pointer [GetInstance] fails its assertion, while the operators
    assert nothing and dereference the null pointer. *)
Theorem C10_dereference_operators (this : addr) (st : state) :
  (forall a, instance st = Some a -> is_Some (heap st !! a) ->
     operator_star this st = Ok a st /\
     operator_star_const this st = Ok a st /\
     operator_arrow this st = Ok (Some a) st /\
     operator_arrow_const this st = Ok (Some a) st /\
     GetInstance st = Ok (Some a) st) /\
  (instance st = None ->
     GetInstance st = AssertionFailed /\
     operator_star this st = Undefined /\
     operator_star_const this st = Undefined /\
     operator_arrow this st = Undefined /\
     operator_arrow_const this st = Undefined).
Proof.
  split.
  - intros a Ei Eh.
    pose proof (operator_star_live this st a Ei Eh) as Es.
    repeat split; try done.
    + unfold operator_arrow, bind. by rewrite Es.
    + unfold operator_arrow_const, bind.
      change (operator_star_const this st) with (operator_star this st).
      by rewrite Es.
    + by apply GetInstance_set.
  - intros Ei.
    pose proof (operator_star_null this st Ei) as Es.
    repeat split; try done.
    + by apply GetInstance_null.
    + unfold operator_arrow, bind. by rewrite Es.
    + unfold operator_arrow_const, bind.
      change (operator_star_const this st) with (operator_star this st).
      by rewrite Es.
Qed.

(** ** The destructor *)

(** With the pointer set and its object live, the destructor deletes that
    object, whose destructor deletes it again, and so on: no depth of
    recursion is enough. *)
Lemma dtor_live (fuel : nat) (this : addr) (st : state) (a : addr) :
  instance st = Some a -> is_Some (heap st !! a) ->
  dtor fuel this st = OutOfFuel.
Proof.
  intros Ei [o Eh]. revert this.
  induction fuel as [|n IH]; intros this; [done|].
  simpl. unfold bind at 1. unfold get_instance. rewrite Ei.
  unfold bind at 1. unfold delete_expr, bind at 1. unfold load.
  rewrite Eh. unfold bind. by rewrite IH.
Qed.

(** With a null pointer it deletes nothing and returns. *)
Lemma dtor_null (fuel : nat) (this : addr) (st : state) :
  instance st = None -> dtor (S fuel) this st = Ok tt (State None (heap st)).
Proof.
  intros Ei. simpl. unfold bind, get_instance. by rewrite Ei.
Qed.

(** It never returns with the pointer set. *)
Lemma dtor_set_not_Ok (fuel : nat) (this : addr) (st : state) (a : addr) :
  instance st = Some a -> forall st', dtor fuel this st <> Ok tt st'.
Proof.
  intros Ei st'. destruct (heap st !! a) as [o|] eqn:Eh.
  - by rewrite (dtor_live fuel this st a).
  - destruct fuel as [|n]; [done|].
    simpl. unfold bind at 1. unfold get_instance. rewrite Ei.
    unfold bind at 1. unfold delete_expr, bind at 1. unfold load.
    by rewrite Eh.
Qed.

(** ** Executions *)

Lemma consistent_initial : consistent initial_state.
Proof. split; [done|]. intros a H. discriminate H. Qed.

Lemma consistent_constructed (st : state) (a : addr) (o : object) :
  consistent (State (Some a) (<[a := o]> (heap st))).
Proof.
  split; [done|]. simpl. intros a' [= <-]. rewrite lookup_insert_eq. by eexists.
Qed.

Lemma consistent_after_creation args st :
  consistent st -> consistent (after_creation args st).
Proof.
  unfold after_creation. destruct (instance st) eqn:E; [done|].
  intros _. apply consistent_constructed.
Qed.

Lemma consistent_live st p :
  consistent st -> is_Some (heap st !! p) ->
  exists a, instance st = Some a /\ is_Some (heap st !! a).
Proof.
  intros [H0 H1] [o Hp]. destruct (instance st) as [a|] eqn:E.
  - exists a. split; [done|]. by apply H1.
  - rewrite (H0 eq_refl) in Hp. by rewrite lookup_empty in Hp.
Qed.

(** Destroying an object in a consistent state: the destructor does not
    terminate if the object is live, and the behaviour is undefined if it is
    not. *)
Lemma step_delete fuel st p :
  consistent st ->
  step' fuel (OpDelete p) st =
  match heap st !! p with
  | Some _ => OutOfFuel
  | None => Undefined
  end.
Proof.
  intros Hc. simpl. unfold delete_expr, bind at 1. unfold load.
  destruct (heap st !! p) as [o|] eqn:Eh; [|done].
  destruct (consistent_live st p Hc) as (a & Ei & Ea); [by rewrite Eh|].
  unfold bind. by rewrite (dtor_live fuel p st a).
Qed.

(** The calls that return leave the state as it was, except a creation. *)
Lemma step_Ok fuel o st st' :
  consistent st -> step' fuel o st = Ok tt st' ->
  match o with
  | OpCreate args => st' = after_creation args st
  | OpConstruct args =>
      st' = State (Some (fresh (dom (heap st))))
                  (<[fresh (dom (heap st)) := ctor_T args]> (heap st))
  | _ => st' = st /\ instance st <> None
  end.
Proof.
  intros Hc. destruct o as [args| |this|this|this|this|args|p]; simpl.
  - unfold bind at 1.
    destruct (CreateSingleton T ctor_T args st) as [a s1| | |] eqn:E; try done.
    apply CreateSingleton_Ok in E as (-> & _). by intros [= <-].
  - unfold bind at 1. destruct (instance st) as [a|] eqn:E.
    + rewrite (GetInstance_set st a E). by intros [= <-].
    + by rewrite (GetInstance_null st E).
  - unfold bind at 1, operator_star, bind, get_instance, deref.
    destruct (instance st) as [a|]; [|done].
    destruct (heap st !! a); [|done]. by intros [= <-].
  - unfold bind at 1, operator_arrow, bind, operator_star, bind,
      get_instance, deref.
    destruct (instance st) as [a|]; [|done].
    destruct (heap st !! a); [|done]. by intros [= <-].
  - unfold bind at 1, operator_star_const, bind, get_instance, deref.
    destruct (instance st) as [a|]; [|done].
    destruct (heap st !! a); [|done]. by intros [= <-].
  - unfold bind at 1, operator_arrow_const, bind, operator_star_const, bind,
      get_instance, deref.
    destruct (instance st) as [a|]; [|done].
    destruct (heap st !! a); [|done]. by intros [= <-].
  - unfold bind. rewrite new_Type_eq. by intros [= <-].
  - pose proof (step_delete fuel st p Hc) as E. simpl in E. rewrite E.
    by destruct (heap st !! p).
Qed.

Lemma step_consistent fuel o st st' :
  consistent st -> step' fuel o st = Ok tt st' -> consistent st'.
Proof.
  intros Hc H. apply step_Ok in H; [|done].
  destruct o as [args| | | | | |args|p].
  2-6,8: by destruct H as [-> _].
  - subst st'. by apply consistent_after_creation.
  - subst st'. apply consistent_constructed.
Qed.

Lemma run_app fuel ops1 ops2 st :
  run' fuel (ops1 ++ ops2) st = (run' fuel ops1 ;;; run' fuel ops2) st.
Proof.
  revert st. induction ops1 as [|o ops1 IH]; intros st; [done|].
  simpl. unfold bind.
  destruct (step' fuel o st) as [[] s1| | |]; try done.
Qed.

Lemma run_consistent fuel ops st st' :
  consistent st -> run' fuel ops st = Ok tt st' -> consistent st'.
Proof.
  revert st. induction ops as [|o ops IH]; intros st Hc; simpl.
  - by intros [= <-].
  - unfold bind.
    destruct (step' fuel o st) as [[] s1| | |] eqn:E; try done.
    apply IH. by eapply step_consistent.
Qed.

Lemma reachable_consistent st : reachable st -> consistent st.
Proof.
  intros (fuel & ops & H). eapply run_consistent; [|done].
  apply consistent_initial.
Qed.

Lemma single_consistent st : single st -> consistent st.
Proof.
  intros [[Ei Eh]|(a & o & Ei & Eh)]; split; try congruence.
  intros a' E. rewrite Ei in E. injection E as <-.
  rewrite Eh, lookup_singleton_eq. by eexists.
Qed.

Lemma single_size st : single st -> size (heap st) <= 1.
Proof.
  intros [[_ ->]|(a & o & _ & ->)].
  - rewrite map_size_empty. lia.
  - by rewrite map_size_singleton.
Qed.

Lemma single_null st : single st -> (instance st = None <-> heap st = ∅).
Proof.
  intros [[Ei Eh]|(a & o & Ei & Eh)]; [done|].
  rewrite Ei, Eh. split; [done|]. intros H.
  by apply map_non_empty_singleton in H.
Qed.

Lemma step_single fuel o st st' :
  is_direct_construction o = false -> single st ->
  step' fuel o st = Ok tt st' ->
  single st' /\
  (instance st <> None -> st' = st) /\
  (instance st = None -> exists args, o = OpCreate args).
Proof.
  intros Hd Hs H. apply step_Ok in H; [|by apply single_consistent].
  destruct o as [args| | | | | |args|p]; try done.
  2-7: destruct H as [-> Hn]; by (split; [|split]).
  subst st'. unfold after_creation.
  destruct Hs as [[Ei Eh]|(a & o & Ei & Eh)]; rewrite Ei.
  - split; [|split]; [|done|by exists args].
    right. exists (fresh (dom (heap st))), (ctor_T args).
    split; [done|]. simpl. by rewrite Eh, insert_empty.
  - split; [|split]; [|done|done].
    right. by exists a, o.
Qed.

Lemma run_single fuel ops st st' :
  utility_only ops -> single st ->
  run' fuel ops st = Ok tt st' ->
  single st' /\
  (instance st <> None -> st' = st) /\
  ((forall args, OpCreate args ∉ ops) -> st' = st).
Proof.
  intros Hu. revert st. induction Hu as [|o ops Ho Hu IH]; intros st Hs; simpl.
  - intros [= <-]. done.
  - unfold bind.
    destruct (step' fuel o st) as [[] s1| | |] eqn:E; try done.
    intros H.
    destruct (step_single fuel o st s1 Ho Hs E) as (Hs1 & Hk & Hc).
    destruct (IH s1 Hs1 H) as (Hs' & Hk' & Hc').
    split; [done|]. split.
    + intros Hn. pose proof (Hk Hn) as ->. by apply Hk'.
    + intros Hno. destruct (instance st) as [a|] eqn:Ei.
      * assert (s1 = st) as -> by (by apply Hk).
        apply Hc'. intros args Hin. apply (Hno args).
        apply elem_of_cons. by right.
      * destruct (Hc eq_refl) as [args ->].
        exfalso. apply (Hno args). apply elem_of_cons. by left.
Qed.

(** C3.  [GetInstance] fails its assertion exactly when the pointer is null,
    which in a reachable state is exactly when no object of the composed
    type exists; otherwise it returns the pointer, which points to a live
    object, and changes nothing. *)
Theorem C3_GetInstance_asserts_instance (st : state) :
  (GetInstance st = AssertionFailed <-> instance st = None) /\
  (forall a, instance st = Some a -> GetInstance st = Ok (Some a) st) /\
  (reachable st ->
   (GetInstance st = AssertionFailed <-> heap st = ∅) /\
   (forall a, instance st = Some a -> is_Some (heap st !! a))).
Proof.
  assert (GetInstance st = AssertionFailed <-> instance st = None) as H.
  { split; [|apply GetInstance_null].
    destruct (instance st) as [a|] eqn:E; [|done].
    by rewrite (GetInstance_set st a E). }
  split; [done|]. split; [apply GetInstance_set|].
  intros [H0 H1]%reachable_consistent. split; [|done].
  rewrite H. split; [done|].
  intros Eh. destruct (instance st) as [a|] eqn:E; [|done].
  destruct (H1 a eq_refl) as [o Ho]. by rewrite Eh, lookup_empty in Ho.
Qed.

(** In an execution without direct constructions there is at most one
    object of the composed type, and the pointer is null exactly when there
    is none; nothing exists before the first [CreateSingleton]; and from the
    moment the pointer is set no later call changes the pointer or the
    object. *)
Lemma single_instance_through_CreateSingleton
    (fuel : nat) (ops : list op) (st : state) :
  utility_only ops ->
  run' fuel ops initial_state = Ok tt st ->
  size (heap st) <= 1 /\
  (instance st = None <-> heap st = ∅) /\
  ((forall args, OpCreate args ∉ ops) -> st = initial_state) /\
  (forall pre post st1,
     ops = pre ++ post ->
     run' fuel pre initial_state = Ok tt st1 ->
     instance st1 <> None -> st = st1).
Proof.
  intros Hu H.
  assert (single initial_state) as Hi by (by left).
  destruct (run_single fuel ops _ st Hu Hi H) as (Hs & _ & Hc).
  split; [by apply single_size|]. split; [by apply single_null|].
  split; [done|].
  intros pre post st1 -> Hpre Hn.
  apply Forall_app in Hu as [Hu1 Hu2].
  rewrite run_app in H. unfold bind in H. rewrite Hpre in H.
  destruct (run_single fuel pre _ st1 Hu1 Hi Hpre) as (Hs1 & _).
  destruct (run_single fuel post _ st Hu2 Hs1 H) as (_ & Hk & _).
  by apply Hk.
Qed.



(** A call that returns leaves every object where and as it was, and an
    object that is new afterwards was built by a constructor of the composed
    class from the arguments of the call. *)
Lemma step_objects fuel o st st' :
  consistent st -> step' fuel o st = Ok tt st' ->
  (forall a x, heap st !! a = Some x -> heap st' !! a = Some x) /\
  (forall a x, heap st !! a = None -> heap st' !! a = Some x ->
     exists args, (o = OpCreate args \/ o = OpConstruct args) /\
                  x = ctor_T args).
Proof.
  intros Hc H. apply step_Ok in H; [|done].
  assert (forall args a x,
    st' = State (Some (fresh (dom (heap st))))
                (<[fresh (dom (heap st)) := ctor_T args]> (heap st)) ->
    (heap st !! a = Some x -> heap st' !! a = Some x) /\
    (heap st !! a = None -> heap st' !! a = Some x -> x = ctor_T args)) as Hn.
  { intros args a x ->. simpl.
    destruct (decide (fresh (dom (heap st)) = a)) as [<-|Hne].
    - rewrite fresh_not_live, lookup_insert_eq. split; congruence.
    - rewrite lookup_insert_ne by done. split; congruence. }
  destruct o as [args| | | | | |args|p].
  2-6,8: destruct H as [-> _]; split; [done|congruence].
  - unfold after_creation in H. destruct (instance st) as [i|].
    + subst st'. split; [done|congruence].
    + split; intros a x; [by apply (Hn args)|].
      intros H0 H1. exists args. split; [by left|]. by eapply (Hn args).
  - split; intros a x; [by apply (Hn args)|].
    intros H0 H1. exists args. split; [by right|]. by eapply (Hn args).
Qed.

(** With the pointer set, a call of a member function of the utility that
    returns has changed nothing. *)
Lemma step_with_instance fuel o st st' :
  consistent st -> instance st <> None ->
  is_direct_construction o = false ->
  step' fuel o st = Ok tt st' -> st' = st.
Proof.
  intros Hc Hn Hd H. apply step_Ok in H; [|done].
  destruct o as [args| | | | | |args|p]; try done.
  2-7: by destruct H as [-> _].
  subst st'. unfold after_creation. by destruct (instance st).
Qed.

(** C7, as far as it holds.  Whatever a [SingletonCRTP] object would be
    copied or moved from, construction and assignment both select a deleted
    function.  A copy or move operation of a composed class is therefore
    unusable when it is implicitly declared and when it hands its argument
    on to the base class; the only usable ones are written by the user and
    leave the base class to its default constructor.  No member function of
    the utility copies or moves an object: with the pointer set, a call
    that returns has changed nothing. *)
Theorem C7_no_copy_no_move_of_the_base :
  (forall op src,
     exists m, resolve SingletonCRTP_special_members op src = Some m /\
               sm_deleted m = true) /\
  (forall op d,
     derived_well_formed SingletonCRTP_special_members op d = true ->
     d = UserWritten BaseDefault) /\
  (forall fuel o st st',
     consistent st -> instance st <> None ->
     is_direct_construction o = false ->
     step' fuel o st = Ok tt st' -> st' = st).
Proof.
  split; [|split].
  - intros [] []; eexists; (split; [reflexivity|reflexivity]).
  - intros op [src|[|src]]; [|done|]; by destruct op, src.
  - apply step_with_instance.
Qed.

(** ** Further properties of the header *)

(** X1.  [has_MainCtor<U>::value] is true exactly when member lookup in
    [U] finds, without ambiguity, an accessible data member
    IsMainCtorCalled of declared type exactly bool.  It is false when the
    name is not found, when it is ambiguous, and when the member found is
    not accessible, not a data member or of another type.  A reference to
    [U] and a qualified [U] get the value of [U]; a pointer, an array and a
    type that is not a class get false. *)
Theorem X1_has_MainCtor_characterized (U : cpp_type) :
  (has_MainCtor U = true <->
   exists m, member_lookup U marker = Found m /\
             m_entity m = DataMember Tbool /\ m_access m = Public) /\
  (member_lookup U marker = NotFound -> has_MainCtor U = false) /\
  (member_lookup U marker = Ambiguous -> has_MainCtor U = false) /\
  (forall m, member_lookup U marker = Found m ->
     m_access m <> Public \/ m_entity m <> DataMember Tbool ->
     has_MainCtor U = false) /\
  has_MainCtor (Reference U) = has_MainCtor U /\
  has_MainCtor (Qualified U) = has_MainCtor U /\
  has_MainCtor (Pointer U) = false /\
  has_MainCtor (Array U) = false /\
  (forall s, has_MainCtor (NonClass s) = false).
Proof.
  split; [apply has_MainCtor_iff_declares_flag|].
  split; [intros E; apply has_MainCtor_false_iff; intros (m & E' & _);
          congruence|].
  split; [intros E; apply has_MainCtor_false_iff; intros (m & E' & _);
          congruence|].
  split.
  - intros m E H. apply has_MainCtor_false_iff.
    intros (m' & E' & He & Ha). rewrite E in E'. injection E' as <-.
    by destruct H.
  - by repeat split.
Qed.

(** X2.  The destructor returns only when the pointer is already null, and
    then it has changed nothing and released nothing.  With the pointer on a
    live object it does not return at any depth of recursion; with a
    dangling pointer its behaviour is undefined. *)
Theorem X2_destructor_returns_only_on_null
    (fuel : nat) (this : addr) (st : state) :
  (forall st', dtor fuel this st = Ok tt st' -> instance st = None /\ st' = st) /\
  (instance st = None -> dtor (S fuel) this st = Ok tt st) /\
  (forall a, instance st = Some a -> is_Some (heap st !! a) ->
     dtor fuel this st = OutOfFuel) /\
  (forall a, instance st = Some a -> heap st !! a = None ->
     dtor (S fuel) this st = Undefined).
Proof.
  assert (instance st = None -> forall n, dtor (S n) this st = Ok tt st) as Hn.
  { intros Ei n. rewrite dtor_null by done. destruct st as [i h].
    simpl in Ei. by subst i. }
  split; [|split; [|split]].
  - intros st' H. destruct (instance st) as [a|] eqn:Ei.
    + by apply (dtor_set_not_Ok fuel this st a Ei) in H.
    + split; [done|]. destruct fuel as [|n]; [done|].
      rewrite (Hn eq_refl n) in H. by injection H.
  - intros Ei. by apply Hn.
  - intros a. apply dtor_live.
  - intros a Ei Eh. simpl. unfold bind at 1. unfold get_instance. rewrite Ei.
    unfold bind at 1. unfold delete_expr, bind at 1. unfold load.
    by rewrite Eh.
Qed.

(** X3.  For a composed class without the completion flag (no member of that
    name, or one that is not an accessible bool), [CreateSingleton] never
    fails its assertion, and in a consistent state it always returns: the
    existing instance unchanged, or a new object at a fresh address built
    from the arguments. *)
Theorem X3_CreateSingleton_without_flag_returns :
  ~ declares_flag (Class T) ->
  (forall args st, CreateSingleton T ctor_T args st <> AssertionFailed) /\
  (forall args st, consistent st ->
     exists a st',
       CreateSingleton T ctor_T args st = Ok a st' /\
       instance st' = Some a /\
       (forall a', instance st = Some a' -> a = a' /\ st' = st) /\
       (instance st = None ->
          a = fresh (dom (heap st)) /\
          heap st' = <[a := ctor_T args]> (heap st))).
Proof.
  intros D. split.
  - intros args st. rewrite CreateSingleton_eq. unfold bind at 1.
    rewrite CheckIsMainCtorCalled_undeclared by done.
    unfold bind, assert, deref.
    destruct (instance (after_creation args st)) as [a|]; [|done].
    by destruct (heap (after_creation args st) !! a).
  - intros args st Hc. destruct (instance st) as [a0|] eqn:Es.
    + pose proof (after_creation_live args st a0 Es) as Ea.
      exists a0, st. split.
      { rewrite <- Ea at 2.
        apply CreateSingleton_checked; rewrite Ea;
          [done | by apply Hc | by apply CheckIsMainCtorCalled_undeclared]. }
      split; [done|]. split; [|done]. by intros a' [= <-].
    + set (a := fresh (dom (heap st))).
      assert (after_creation args st
              = State (Some a) (<[a := ctor_T args]> (heap st))) as Ea
        by (unfold after_creation; by rewrite Es).
      exists a, (State (Some a) (<[a := ctor_T args]> (heap st))). split.
      { rewrite <- Ea.
        apply CreateSingleton_checked; rewrite Ea; simpl;
          [done | rewrite lookup_insert_eq; by eexists
          | by apply CheckIsMainCtorCalled_undeclared]. }
      split; [done|]. split; [done|]. by intros _.
Qed.

Lemma step_on_checked_instance fuel o st p :
  instance st = Some p -> is_Some (heap st !! p) ->
  CheckIsMainCtorCalled (Class T) (Some p) st = Ok true st ->
  is_direct_construction o = false -> (forall q, o <> OpDelete q) ->
  step' fuel o st = Ok tt st.
Proof.
  intros Ei Eh Ec Hd Hq.
  pose proof (operator_star_live p st p Ei Eh) as Es.
  pose proof (after_creation_live) as Ea.
  destruct o as [args| |this|this|this|this|args|q]; simpl.
  - specialize (Ea args st p Ei).
    assert (CreateSingleton T ctor_T args st = Ok p st) as E.
    { rewrite <- Ea at 2. apply CreateSingleton_checked; by rewrite Ea. }
    unfold bind. by rewrite E.
  - unfold bind. by rewrite (GetInstance_set st p Ei).
  - unfold bind. change (operator_star this st) with (operator_star p st).
    by rewrite Es.
  - unfold operator_arrow, bind.
    change (operator_star this st) with (operator_star p st). by rewrite Es.
  - unfold bind.
    change (operator_star_const this st) with (operator_star p st).
    by rewrite Es.
  - unfold operator_arrow_const, bind.
    change (operator_star_const this st) with (operator_star p st).
    by rewrite Es.
  - done.
  - by destruct (Hq q).
Qed.

(** X4.  Once a call of [CreateSingleton] has returned, every sequence of
    further calls of [CreateSingleton], [GetInstance] and the dereference
    operators runs to its end without a failure and leaves the state as that
    first call left it. *)
Theorem X4_calls_after_creation_succeed
    (args : Args) (st st1 : state) (p : addr) (fuel : nat) (ops : list op) :
  CreateSingleton T ctor_T args st = Ok p st1 ->
  Forall (fun o => is_direct_construction o = false /\
                   forall q, o <> OpDelete q) ops ->
  run' fuel ops st1 = Ok tt st1.
Proof.
  intros H Hops. apply CreateSingleton_Ok in H as (_ & Ei & Eh & Ec).
  induction Hops as [|o ops [Hd Hq] _ IH]; [done|].
  simpl. unfold bind.
  by rewrite (step_on_checked_instance fuel o st1 p).
Qed.

(** X5.  No execution releases or alters an object of the composed type: in
    a run that starts in a consistent state and returns, every object that
    was live at the start is live and unchanged at the end, and the end
    state is consistent again. *)
Theorem X5_objects_are_never_released
    (fuel : nat) (ops : list op) (st st' : state) :
  consistent st ->
  run' fuel ops st = Ok tt st' ->
  heap st ⊆ heap st' /\ consistent st'.
Proof.
  revert st. induction ops as [|o ops IH]; intros st Hc; simpl.
  - by intros [= <-].
  - unfold bind.
    destruct (step' fuel o st) as [[] s1| | |] eqn:E; try done.
    intros H.
    destruct (IH s1 (step_consistent fuel o st s1 Hc E) H) as [Hsub Hc'].
    split; [|done].
    destruct (step_objects fuel o st s1 Hc E) as [Hkeep _].
    etrans; [|exact Hsub].
    apply map_subseteq_spec. intros a x. apply Hkeep.
Qed.

(** X6.  The [static_assert] accepts exactly the template arguments that are
    a class, an array of classes, or a reference to a class.  For an
    argument that is not a reference, [Type] is the class without
    qualifiers and extents; for a reference, [remove_cv] comes too early,
    and [Type] is the referenced type with its qualifiers and extents. *)
Theorem X6_Type_of_template_argument (t : template_argument) :
  (static_assert_holds t = true <->
   (exists n, ta_base t = BaseClass n) /\
   (ta_reference t = None \/ ta_extents t = [])) /\
  (ta_reference t = None ->
   SingletonCRTP_Type t = Template_argument None [] unqualified (ta_base t)) /\
  (forall r, ta_reference t = Some r ->
   SingletonCRTP_Type t
   = Template_argument None (ta_extents t) (ta_cv t) (ta_base t)).
Proof.
  unfold static_assert_holds, SingletonCRTP_Type, is_class, remove_reference,
    remove_cv, remove_all_extents.
  destruct t as [[r|] ext cv b]; simpl.
  - split; [|split; [by intros [=] | by intros r' _]].
    destruct ext as [|e ext], b as [n|]; split.
    all: try (by intros [=]).
    all: try (by intros [[n' [=]] _]).
    all: try (by intros [_ [[=]|[=]]]).
    intros _. split; [by exists n | by right].
  - split; [|split; [by intros _ | by intros r' [=]]].
    destruct b as [n|]; split.
    all: try (by intros [=]).
    all: try (by intros [[n' [=]] _]).
    intros _. split; [by exists n | by left].
Qed.

(** X7.  The completion check guards [CreateSingleton] only.  After the
    construction of an object at [this], [GetInstance] and the dereference
    operators return that object whatever its flag is, also when the class
    declares the flag and the object's flag is false, where
    [CreateSingleton] fails its assertion. *)
Theorem X7_access_skips_completion_check
    (this x : addr) (args args' : Args) (st : state) :
  let st' := State (Some this) (<[this := ctor_T args]> (heap st)) in
  construct_T ctor_T this args st = Ok tt st' /\
  GetInstance st' = Ok (Some this) st' /\
  operator_star x st' = Ok this st' /\
  operator_arrow x st' = Ok (Some this) st' /\
  operator_star_const x st' = Ok this st' /\
  operator_arrow_const x st' = Ok (Some this) st' /\
  (declares_flag (Class T) ->
   ctor_T args !! marker = Some (Vbool false) ->
   CreateSingleton T ctor_T args' st' = AssertionFailed).
Proof.
  intros st'.
  assert (heap st' !! this = Some (ctor_T args)) as Eh
    by apply lookup_insert_eq.
  assert (operator_star x st' = Ok this st') as Es.
  { apply operator_star_live; [done|by rewrite Eh]. }
  split; [done|]. split; [by apply GetInstance_set|]. split; [done|].
  split; [unfold operator_arrow, bind; by rewrite Es|]. split; [done|].
  split.
  - unfold operator_arrow_const, bind.
    change (operator_star_const x st') with (operator_star x st').
    by rewrite Es.
  - intros D Hf. eapply CreateSingleton_unchecked; [done|].
    change (after_creation args' st') with st'.
    by apply (CheckIsMainCtorCalled_declared (Class T) this (ctor_T args)).
Qed.

(** X8.  [CheckIsMainCtorCalled] only reads: when it returns, the state is
    the one it was called in.  It never fails an assertion and never
    diverges.  For a type with [has_MainCtor] false it returns true whatever
    the pointer is, a null pointer included.  For a type with [has_MainCtor]
    true it returns the object's member converted to bool, and its behaviour
    is undefined exactly when the pointer does not lead to an object with
    that member (it is null or dangling). *)
Theorem X8_CheckIsMainCtorCalled_edges
    (U : cpp_type) (t : option addr) (st : state) :
  (forall b st', CheckIsMainCtorCalled U t st = Ok b st' -> st' = st) /\
  CheckIsMainCtorCalled U t st <> AssertionFailed /\
  CheckIsMainCtorCalled U t st <> OutOfFuel /\
  (has_MainCtor U = false -> CheckIsMainCtorCalled U t st = Ok true st) /\
  (has_MainCtor U = true ->
   forall a o v, t = Some a -> heap st !! a = Some o ->
     o !! marker = Some v ->
     CheckIsMainCtorCalled U t st = Ok (to_bool v) st) /\
  (CheckIsMainCtorCalled U t st = Undefined <->
   has_MainCtor U = true /\
   ~ exists a o v, t = Some a /\ heap st !! a = Some o /\ o !! marker = Some v).
Proof.
  split; [intros b st'; apply CheckIsMainCtorCalled_state|].
  unfold CheckIsMainCtorCalled.
  destruct (has_MainCtor U) eqn:E.
  - unfold CheckIsMainCtorCalled_template, bind, load, read_marker.
    destruct t as [a|].
    + destruct (heap st !! a) as [o|] eqn:Eh.
      * destruct (o !! marker) as [v|] eqn:Eo.
        -- split; [done|]. split; [done|]. split; [done|]. split.
           ++ intros _ a' o' v' [= <-] H1 H2. congruence.
           ++ split; [done|]. intros [_ H]. destruct H. by exists a, o, v.
        -- split; [done|]. split; [done|]. split; [done|]. split.
           ++ intros _ a' o' v' [= <-] H1 H2. congruence.
           ++ split; [|done]. intros _. split; [done|].
              intros (a' & o' & v & [= <-] & H1 & H2). congruence.
      * split; [done|]. split; [done|]. split; [done|]. split.
        -- intros _ a' o' v' [= <-] H1 H2. congruence.
        -- split; [|done]. intros _. split; [done|].
           intros (a' & o' & v & [= <-] & H1 & H2). congruence.
    + split; [done|]. split; [done|]. split; [done|]. split.
      * by intros _ a' o' v' [=].
      * split; [|done]. intros _. split; [done|].
        by intros (a' & o' & v & [=] & _).
  - unfold CheckIsMainCtorCalled_variadic, ret.
    split; [done|]. split; [done|]. split; [done|]. split; [done|].
    split; [done|]. by intros [[=] _].
Qed.

End Singleton.

(** ** The theorems at concrete classes *)

Lemma C5_first_call_wins_witness :
  CreateSingleton Plain ctor_Plain 7%Z
    (State (Some 1%positive) {[ 1%positive := ctor_Plain 3%Z ]})
  = Ok 1%positive (State (Some 1%positive) {[ 1%positive := ctor_Plain 3%Z ]}).
Proof.
  apply (C5_first_call_wins Plain ctor_Plain 3%Z 7%Z initial_state).
  vm_compute. reflexivity.
Defined.

Lemma C10_dereference_operators_witness :
  operator_star 1%positive
    (State (Some 1%positive) {[ 1%positive := ctor_Plain 3%Z ]})
  = Ok 1%positive (State (Some 1%positive) {[ 1%positive := ctor_Plain 3%Z ]})
  /\ operator_arrow 1%positive initial_state = Undefined.
Proof.
  split.
  - apply (C10_dereference_operators 1%positive
             (State (Some 1%positive) {[ 1%positive := ctor_Plain 3%Z ]}));
      [reflexivity | by eexists].
  - apply (C10_dereference_operators 1%positive initial_state). reflexivity.
Defined.

Lemma C3_GetInstance_asserts_instance_witness :
  reachable Plain ctor_Plain
    (State (Some 1%positive) {[ 1%positive := ctor_Plain 3%Z ]}) /\
  GetInstance (State (Some 1%positive) {[ 1%positive := ctor_Plain 3%Z ]})
    <> AssertionFailed /\
  is_Some (({[ 1%positive := ctor_Plain 3%Z ]} : gmap addr object) !! 1%positive).
Proof.
  assert (reachable Plain ctor_Plain
    (State (Some 1%positive) {[ 1%positive := ctor_Plain 3%Z ]})) as R.
  { exists 0, [OpCreate 3%Z]. vm_compute. reflexivity. }
  destruct (C3_GetInstance_asserts_instance Plain ctor_Plain
    (State (Some 1%positive) {[ 1%positive := ctor_Plain 3%Z ]}))
    as (_ & _ & H).
  destruct (H R) as [[H1 _] H2].
  split; [exact R|]. split.
  - intros E. apply H1 in E. simpl in E.
    apply (f_equal (fun h => h !! 1%positive)) in E.
    vm_compute in E. discriminate E.
  - apply H2. reflexivity.
Defined.

(** C4.  Two objects of the composed type live at once: after
    [CreateSingleton(1)] the construction of a second object, which runs the
    base-class constructor, leaves it live next to the first, and the static
    pointer has moved from the first to the second. *)
Theorem C4_two_live_instances :
  run Plain ctor_Plain 0 [OpCreate 1%Z] initial_state
    = Ok tt (State (Some 1%positive) {[ 1%positive := ctor_Plain 1%Z ]}) /\
  run Plain ctor_Plain 0 [OpCreate 1%Z; OpConstruct 2%Z] initial_state
    = Ok tt (State (Some 2%positive)
               (<[ 2%positive := ctor_Plain 2%Z ]>
                  {[ 1%positive := ctor_Plain 1%Z ]})) /\
  ~ size (<[ 2%positive := ctor_Plain 2%Z ]>
            ({[ 1%positive := ctor_Plain 1%Z ]} : gmap addr object)) <= 1 /\
  ~ at_most_one_live Plain ctor_Plain.
Proof.
  assert (run Plain ctor_Plain 0 [OpCreate 1%Z; OpConstruct 2%Z] initial_state
    = Ok tt (State (Some 2%positive)
               (<[ 2%positive := ctor_Plain 2%Z ]>
                  {[ 1%positive := ctor_Plain 1%Z ]}))) as H
    by (vm_compute; reflexivity).
  assert (~ size (<[ 2%positive := ctor_Plain 2%Z ]>
            ({[ 1%positive := ctor_Plain 1%Z ]} : gmap addr object)) <= 1) as Hs.
  { rewrite map_size_insert_None by done. rewrite map_size_singleton. lia. }
  split; [by vm_compute|]. split; [done|]. split; [done|].
  intros Hc. apply Hs. by apply (Hc _ _ _ H).
Qed.



Lemma consistent_example :
  consistent (State (Some 1%positive) {[ 1%positive := ctor_Plain 3%Z ]}).
Proof. apply (consistent_constructed (State None ∅)). Qed.

Lemma C7_no_copy_no_move_of_the_base_witness :
  derived_well_formed SingletonCRTP_special_members Assignment
    (UserWritten BaseDefault) = true /\
  UserWritten BaseDefault = UserWritten BaseDefault /\
  step Plain ctor_Plain 0 (OpCreate 4%Z)
    (State (Some 1%positive) {[ 1%positive := ctor_Plain 3%Z ]})
  = Ok tt (State (Some 1%positive) {[ 1%positive := ctor_Plain 3%Z ]}).
Proof.
  destruct (C7_no_copy_no_move_of_the_base Plain ctor_Plain) as (_ & Hd & Hs).
  split; [reflexivity|]. split.
  - apply (Hd Assignment (UserWritten BaseDefault)). reflexivity.
  - assert (exists st',
      step Plain ctor_Plain 0 (OpCreate 4%Z)
        (State (Some 1%positive) {[ 1%positive := ctor_Plain 3%Z ]})
      = Ok tt st') as [st' E] by (eexists; vm_compute; reflexivity).
    rewrite E. f_equal.
    apply (Hs 0 (OpCreate 4%Z)
             (State (Some 1%positive) {[ 1%positive := ctor_Plain 3%Z ]}) st').
    + apply consistent_example.
    + discriminate.
    + reflexivity.
    + exact E.
Defined.

(** C7 for every composed class: the copy constructor that [Copyable]
    writes itself is usable, because the base class is default-constructed
    through the protected constructor; copying the instance leaves two
    objects with the same members, and the static pointer on the copy. *)
Lemma C7_composed_class_copies_itself :
  derived_well_formed SingletonCRTP_special_members Construction
    (UserWritten BaseDefault) = true /\
  run Copyable ctor_Copyable 0
    [OpCreate (FromInt 3%Z); OpConstruct (CopyOf (ctor_Copyable (FromInt 3%Z)))]
    initial_state
  = Ok tt (State (Some 2%positive)
             (<[ 2%positive := ctor_Copyable (FromInt 3%Z) ]>
                {[ 1%positive := ctor_Copyable (FromInt 3%Z) ]})) /\
  ~ (forall op d,
       derived_well_formed SingletonCRTP_special_members op d = false).
Proof.
  split; [reflexivity|]. split; [by vm_compute|].
  intros H. by specialize (H Construction (UserWritten BaseDefault)).
Qed.

(** C1.  [Counted] exposes a member IsMainCtorCalled, its constructor leaves
    it 0, which reads false, and [CreateSingleton] does not fail its
    assertion: it returns the instance, both when it constructs it and when
    it finds it. *)
Theorem C1_CreateSingleton_returns_with_int_flag_unset :
  exposes_marker (Class Counted) /\
  ctor_Counted 0%Z !! marker = Some (Vint 0%Z) /\
  to_bool (Vint 0%Z) = false /\
  CreateSingleton Counted ctor_Counted 0%Z initial_state
  = Ok 1%positive
      (State (Some 1%positive) {[ 1%positive := ctor_Counted 0%Z ]}) /\
  CreateSingleton Counted ctor_Counted 5%Z
    (State (Some 1%positive) {[ 1%positive := ctor_Counted 0%Z ]})
  = Ok 1%positive
      (State (Some 1%positive) {[ 1%positive := ctor_Counted 0%Z ]}).
Proof.
  split; [apply exposes_marker_Counted|].
  split; [reflexivity|]. split; [reflexivity|].
  split; by vm_compute.
Qed.

(** C6.  For a pointer to a [Counted] whose member IsMainCtorCalled is 0,
    which reads false, [CheckIsMainCtorCalled] returns true. *)
Theorem C6_CheckIsMainCtorCalled_ignores_int_flag :
  exposes_marker (Class Counted) /\
  ctor_Counted 0%Z !! marker = Some (Vint 0%Z) /\
  to_bool (Vint 0%Z) = false /\
  CheckIsMainCtorCalled (Class Counted) (Some 1%positive)
    (State (Some 1%positive) {[ 1%positive := ctor_Counted 0%Z ]})
  = Ok true (State (Some 1%positive) {[ 1%positive := ctor_Counted 0%Z ]}).
Proof.
  split; [apply exposes_marker_Counted|].
  split; [reflexivity|]. split; reflexivity.
Qed.


(** ** The functions at concrete inputs *)

Example has_MainCtor_Flagged : has_MainCtor (Class Flagged) = true.
Proof. reflexivity. Qed.

Example has_MainCtor_Plain : has_MainCtor (Class Plain) = false.
Proof. reflexivity. Qed.

Example has_MainCtor_int : has_MainCtor (NonClass Sint) = false.
Proof. reflexivity. Qed.

Example has_MainCtor_const_bool :
  has_MainCtor
    (Class (Class_decl [Member marker (DataMember (Tconst Tbool)) Public] []))
  = false.
Proof. reflexivity. Qed.

Example has_MainCtor_private_flag :
  has_MainCtor
    (Class (Class_decl [Member marker (DataMember Tbool) Private] []))
  = false.
Proof. reflexivity. Qed.

Example has_MainCtor_private_base : has_MainCtor (Class Hidden) = false.
Proof. reflexivity. Qed.

Example member_lookup_two_bases :
  member_lookup (Class Twice) marker = Ambiguous.
Proof. reflexivity. Qed.

Example has_MainCtor_two_bases : has_MainCtor (Class Twice) = false.
Proof. reflexivity. Qed.

Example has_MainCtor_reference :
  has_MainCtor (Reference (Class Flagged)) = true.
Proof. reflexivity. Qed.

Example has_MainCtor_const_reference :
  has_MainCtor (Reference (Qualified (Class Flagged))) = true.
Proof. reflexivity. Qed.

Example has_MainCtor_pointer :
  has_MainCtor (Pointer (Class Flagged)) = false.
Proof. reflexivity. Qed.

(** With a private base [IMainCtor] and the flag false, the completion
    check is the variadic overload as well. *)
Example CreateSingleton_Hidden_false :
  CreateSingleton Hidden ctor_Flagged false initial_state
  = Ok 1%positive (State (Some 1%positive) {[ 1%positive := ctor_Flagged false ]}).
Proof. vm_compute. reflexivity. Qed.

(** With the flag declared as an int, the completion check is the variadic
    overload: the singleton is created and returned with the flag at 0. *)
Example CreateSingleton_Counted_zero :
  CreateSingleton Counted ctor_Counted 0%Z initial_state
  = Ok 1%positive (State (Some 1%positive) {[ 1%positive := ctor_Counted 0%Z ]}).
Proof. vm_compute. reflexivity. Qed.

Example CreateSingleton_Flagged_false :
  CreateSingleton Flagged ctor_Flagged false initial_state = AssertionFailed.
Proof. reflexivity. Qed.

Example GetInstance_before_creation :
  GetInstance initial_state = AssertionFailed.
Proof. reflexivity. Qed.

Example resolve_copy_from_lvalue :
  resolve SingletonCRTP_special_members Construction Lvalue
  = Some (Special_member Construction (Some LvalueRef) true Public).
Proof. reflexivity. Qed.

Example resolve_assign_from_rvalue :
  resolve SingletonCRTP_special_members Assignment Rvalue
  = Some (Special_member Assignment (Some RvalueRef) true Public).
Proof. reflexivity. Qed.

Example resolve_copy_from_const_lvalue :
  resolve SingletonCRTP_special_members Construction ConstLvalue
  = Some (Special_member Construction (Some ConstLvalueRef) true Public).
Proof. reflexivity. Qed.

(** [delete] of the instance, at several depths of recursion. *)
Example delete_instance_depths :
  List.map
    (fun fuel =>
       step Plain ctor_Plain fuel (OpDelete 1%positive)
         (State (Some 1%positive) {[ 1%positive := ctor_Plain 3%Z ]}))
    [0; 1; 10; 100]
  = [OutOfFuel; OutOfFuel; OutOfFuel; OutOfFuel].
Proof. vm_compute. reflexivity. Qed.

(** ** The further properties at concrete classes *)

Lemma X1_has_MainCtor_characterized_witness :
  has_MainCtor (Class Counted) = false /\
  has_MainCtor (Class Plain) = false /\
  has_MainCtor (Class Twice) = false /\
  has_MainCtor (Reference (Class Flagged)) = true.
Proof.
  split; [|split; [|split]].
  - apply (proj1 (proj2 (proj2 (proj2 (X1_has_MainCtor_characterized
             (Class Counted))))) (Member marker (DataMember Tint) Public)
             eq_refl).
    right. discriminate.
  - apply (proj1 (proj2 (X1_has_MainCtor_characterized (Class Plain)))).
    reflexivity.
  - apply (proj1 (proj2 (proj2 (X1_has_MainCtor_characterized (Class Twice))))).
    reflexivity.
  - apply (proj1 (X1_has_MainCtor_characterized (Reference (Class Flagged)))).
    exists (Member marker (DataMember Tbool) Public).
    split; [reflexivity|]. split; reflexivity.
Defined.

Lemma X2_destructor_returns_only_on_null_witness :
  dtor 7 1%positive
    (State (Some 1%positive) {[ 1%positive := ctor_Plain 3%Z ]}) = OutOfFuel /\
  dtor 1 1%positive initial_state = Ok tt initial_state /\
  dtor 1 1%positive (State (Some 1%positive) ∅) = Undefined.
Proof.
  split; [|split].
  - apply (proj1 (proj2 (proj2 (X2_destructor_returns_only_on_null 7 1%positive
             (State (Some 1%positive) {[ 1%positive := ctor_Plain 3%Z ]}))))
             1%positive eq_refl).
    exists (ctor_Plain 3%Z). reflexivity.
  - apply (proj1 (proj2 (X2_destructor_returns_only_on_null 0 1%positive
             initial_state)) eq_refl).
  - apply (proj2 (proj2 (proj2 (X2_destructor_returns_only_on_null 0 1%positive
             (State (Some 1%positive) ∅)))) 1%positive eq_refl).
    apply lookup_empty.
Defined.

Lemma X3_CreateSingleton_without_flag_returns_witness :
  exists a st',
    CreateSingleton Counted ctor_Counted 0%Z initial_state = Ok a st' /\
    instance st' = Some a /\
    (forall a', instance initial_state = Some a' ->
       a = a' /\ st' = initial_state) /\
    (instance initial_state = None ->
       a = fresh (dom (heap initial_state)) /\
       heap st' = <[a := ctor_Counted 0%Z]> (heap initial_state)).
Proof.
  apply (proj2 (X3_CreateSingleton_without_flag_returns Counted ctor_Counted
                  (proj1 (has_MainCtor_false_iff (Class Counted)) eq_refl))
           0%Z initial_state).
  split; [reflexivity | intros a H; discriminate H].
Defined.

Lemma X4_calls_after_creation_succeed_witness :
  run Flagged ctor_Flagged 0
    [OpGet; OpCreate false; OpStar 5%positive; OpArrowConst 2%positive]
    (State (Some 1%positive) {[ 1%positive := ctor_Flagged true ]})
  = Ok tt (State (Some 1%positive) {[ 1%positive := ctor_Flagged true ]}).
Proof.
  apply (X4_calls_after_creation_succeed Flagged ctor_Flagged true
           initial_state
           (State (Some 1%positive) {[ 1%positive := ctor_Flagged true ]})
           1%positive).
  - vm_compute. reflexivity.
  - repeat constructor; intros q H; discriminate H.
Defined.

Lemma X5_objects_are_never_released_witness :
  ({[ 1%positive := ctor_Plain 3%Z ]} : gmap addr object)
  ⊆ <[ 2%positive := ctor_Plain 4%Z ]> {[ 1%positive := ctor_Plain 3%Z ]}.
Proof.
  destruct (X5_objects_are_never_released Plain ctor_Plain 0
           [OpConstruct 4%Z; OpGet]
           (State (Some 1%positive) {[ 1%positive := ctor_Plain 3%Z ]})
           (State (Some 2%positive)
              (<[ 2%positive := ctor_Plain 4%Z ]>
                 {[ 1%positive := ctor_Plain 3%Z ]}))) as [H _].
  - split; [intros H; discriminate H|].
    intros a [= <-]. exists (ctor_Plain 3%Z). reflexivity.
  - vm_compute. reflexivity.
  - exact H.
Defined.

Lemma X6_Type_of_template_argument_witness :
  SingletonCRTP_Type
    (Template_argument (Some LvalueReference) [] (Cv true false)
       (BaseClass "Foo"))
  = Template_argument None [] (Cv true false) (BaseClass "Foo") /\
  SingletonCRTP_Type
    (Template_argument None [Some 3] (Cv true false) (BaseClass "Foo"))
  = Template_argument None [] unqualified (BaseClass "Foo") /\
  static_assert_holds
    (Template_argument (Some LvalueReference) [] (Cv true false)
       (BaseClass "Foo")) = true.
Proof.
  split; [|split].
  - apply (proj2 (proj2 (X6_Type_of_template_argument
             (Template_argument (Some LvalueReference) [] (Cv true false)
                (BaseClass "Foo")))) LvalueReference eq_refl).
  - apply (proj1 (proj2 (X6_Type_of_template_argument
             (Template_argument None [Some 3] (Cv true false)
                (BaseClass "Foo")))) eq_refl).
  - apply (proj1 (X6_Type_of_template_argument
             (Template_argument (Some LvalueReference) [] (Cv true false)
                (BaseClass "Foo")))).
    split; [exists "Foo"; reflexivity | right; reflexivity].
Defined.

Lemma X7_access_skips_completion_check_witness :
  GetInstance (State (Some 1%positive)
                 (<[ 1%positive := ctor_Flagged false ]> (heap initial_state)))
  = Ok (Some 1%positive)
      (State (Some 1%positive)
         (<[ 1%positive := ctor_Flagged false ]> (heap initial_state))) /\
  CreateSingleton Flagged ctor_Flagged true
    (State (Some 1%positive)
       (<[ 1%positive := ctor_Flagged false ]> (heap initial_state)))
  = AssertionFailed.
Proof.
  destruct (X7_access_skips_completion_check Flagged ctor_Flagged
              1%positive 1%positive false true initial_state)
    as (_ & Hg & _ & _ & _ & _ & Hc).
  split; [exact Hg|].
  apply Hc; [apply declares_flag_Flagged | reflexivity].
Defined.

Lemma X8_CheckIsMainCtorCalled_edges_witness :
  CheckIsMainCtorCalled (Class Flagged) None initial_state = Undefined /\
  CheckIsMainCtorCalled (Class Counted) None initial_state
  = Ok true initial_state /\
  CheckIsMainCtorCalled (Class Flagged) (Some 1%positive)
    (State (Some 1%positive) {[ 1%positive := ctor_Flagged false ]})
  = Ok false (State (Some 1%positive) {[ 1%positive := ctor_Flagged false ]}).
Proof.
  split; [|split].
  - apply (proj2 (proj2 (proj2 (proj2 (proj2 (X8_CheckIsMainCtorCalled_edges
             (Class Flagged) None initial_state)))))).
    split; [reflexivity|].
    intros (a & o & v & H & _). discriminate H.
  - apply (proj1 (proj2 (proj2 (proj2 (X8_CheckIsMainCtorCalled_edges
             (Class Counted) None initial_state))))).
    reflexivity.
  - apply (proj1 (proj2 (proj2 (proj2 (proj2 (X8_CheckIsMainCtorCalled_edges
             (Class Flagged) (Some 1%positive)
             (State (Some 1%positive)
                {[ 1%positive := ctor_Flagged false ]}))))))
             eq_refl 1%positive (ctor_Flagged false) (Vbool false));
      reflexivity.
Defined.
